(** * The libzfs_core binding header [zfscore.h]

    The source file is a C header: six type declarations followed by
    twenty-four function prototypes.  It has no function bodies.  The
    development below transcribes the declarations, in source order, as
    data, and defines over them the few computations the C language itself
    attaches to a declaration: the value of an enumerator, the type a
    typedef name stands for, completeness of a type, and the minimum width
    of an integer type. *)

From Stdlib Require Import ZArith List String Bool Lia Permutation.
Import ListNotations.

Local Open Scope string_scope.
Local Open Scope Z_scope.

(** ** C types as they are spelled in the header *)

Module CTypes.

Inductive signedness : Set := Signed | Unsigned.

Inductive int_rank : Set := IChar | IShort | IInt | ILong | ILongLong.

Inductive ctype : Set :=
| Tvoid
| Tchar                                     (* plain [char] *)
| Tint (s : signedness) (r : int_rank)      (* [int] is [Tint Signed IInt] *)
| Tnamed (name : string)                    (* a typedef name *)
| Tstruct (tag : string)                    (* [struct tag] *)
| Tenum (tag : string)                      (* [enum tag] *)
| Tconst (t : ctype)                        (* [const t] *)
| Tpointer (t : ctype).                     (* [t *] *)

Definition signedness_eqb (a b : signedness) : bool :=
  match a, b with
  | Signed, Signed | Unsigned, Unsigned => true
  | _, _ => false
  end.

Definition int_rank_eqb (a b : int_rank) : bool :=
  match a, b with
  | IChar, IChar | IShort, IShort | IInt, IInt
  | ILong, ILong | ILongLong, ILongLong => true
  | _, _ => false
  end.

Fixpoint ctype_eqb (a b : ctype) : bool :=
  match a, b with
  | Tvoid, Tvoid => true
  | Tchar, Tchar => true
  | Tint s r, Tint s' r' => signedness_eqb s s' && int_rank_eqb r r'
  | Tnamed n, Tnamed n' => String.eqb n n'
  | Tstruct n, Tstruct n' => String.eqb n n'
  | Tenum n, Tenum n' => String.eqb n n'
  | Tconst t, Tconst t' => ctype_eqb t t'
  | Tpointer t, Tpointer t' => ctype_eqb t t'
  | _, _ => false
  end.

(** Minimum widths in bits that the C standard guarantees for each integer
    rank (ISO C 5.2.4.2.1: [CHAR_BIT >= 8], [SHRT_MAX >= 32767],
    [INT_MAX >= 32767], [LONG_MAX >= 2^31-1], [LLONG_MAX >= 2^63-1]). *)
Definition min_width (r : int_rank) : Z :=
  match r with
  | IChar => 8
  | IShort => 16
  | IInt => 16
  | ILong => 32
  | ILongLong => 64
  end.

(** The closed range of values of an integer type that is [w] bits wide. *)
Definition int_min (s : signedness) (w : Z) : Z :=
  match s with
  | Signed => - 2 ^ (w - 1)
  | Unsigned => 0
  end.

Definition int_max (s : signedness) (w : Z) : Z :=
  match s with
  | Signed => 2 ^ (w - 1) - 1
  | Unsigned => 2 ^ w - 1
  end.

Definition representable (s : signedness) (w : Z) (v : Z) : Prop :=
  int_min s w <= v <= int_max s w.

End CTypes.

Export CTypes.

(** ** Declarations *)

Record enumerator : Set := Enumerator {
  en_name : string;
  en_init : option Z          (* [NAME = v] or just [NAME] *)
}.

Record param : Set := Param {
  p_name : option string;     (* prototypes may leave parameters unnamed *)
  p_type : ctype
}.

Record prototype : Set := Prototype {
  f_name : string;
  f_ret : ctype;
  f_params : list param       (* [(void)] is the empty list *)
}.

Inductive decl : Set :=
| Dtypedef (name : string) (t : ctype)
    (* [typedef t name;] *)
| Dstruct (tag : string) (members : option (list (string * ctype)))
    (* [struct tag;] when [members] is [None], [struct tag { ... };] otherwise *)
| Denum (tag : string) (es : list enumerator)
    (* [enum tag { ... };] *)
| Dtypedef_enum (name : string) (es : list enumerator)
    (* [typedef enum { ... } name;] *)
| Dfun (p : prototype).

Definition header : Set := list decl.

(** Abbreviations for the spellings that recur in the prototypes. *)
Definition t_int : ctype := Tint Signed IInt.
Definition t_const_char_p : ctype := Tpointer (Tconst Tchar).
Definition t_char_p : ctype := Tpointer Tchar.
Definition t_char_pp : ctype := Tpointer (Tpointer Tchar).
Definition t_uint64_t : ctype := Tnamed "uint64_t".
Definition t_uint64_p : ctype := Tpointer (Tnamed "uint64_t").
Definition t_boolean_t : ctype := Tnamed "boolean_t".
Definition t_nvlist_t : ctype := Tnamed "nvlist_t".
Definition t_nvlist_p : ctype := Tpointer (Tnamed "nvlist_t").
Definition t_nvlist_pp : ctype := Tpointer (Tpointer (Tnamed "nvlist_t")).
Definition t_dmu_objset_type_t : ctype := Tnamed "dmu_objset_type_t".
Definition t_enum_lzc_send_flags : ctype := Tenum "lzc_send_flags".

Definition anon (t : ctype) : param := Param None t.
Definition named (n : string) (t : ctype) : param := Param (Some n) t.

(** ** The header, declaration by declaration (zfscore.h, lines 1-42) *)

Definition zfscore_h : header := [
  (*  1 *) Dtypedef "uint64_t" (Tint Unsigned ILongLong);
  (*  2 *) Dtypedef "boolean_t" (Tint Signed IInt);
  (*  3 *) Dstruct "nvlist" None;
  (*  5 *) Dtypedef "nvlist_t" (Tstruct "nvlist");
  (*  6 *) Denum "lzc_send_flags" [
             Enumerator "LZC_SEND_FLAG_EMBED_DATA" (Some 1);
             Enumerator "LZC_SEND_FLAG_LARGE_BLOCK" (Some 2) ];
  (* 10 *) Dtypedef_enum "dmu_objset_type_t" [
             Enumerator "DMU_OST_NONE" None;
             Enumerator "DMU_OST_META" None;
             Enumerator "DMU_OST_ZFS" None;
             Enumerator "DMU_OST_ZVOL" None;
             Enumerator "DMU_OST_OTHER" None;
             Enumerator "DMU_OST_ANY" None;
             Enumerator "DMU_OST_NUMTYPES" None ];
  (* 19 *) Dfun (Prototype "libzfs_core_init" t_int []);
  (* 20 *) Dfun (Prototype "libzfs_core_fini" Tvoid []);
  (* 21 *) Dfun (Prototype "lzc_snapshot" t_int
             [anon t_nvlist_p; anon t_nvlist_p; anon t_nvlist_pp]);
  (* 22 *) Dfun (Prototype "lzc_create" t_int
             [anon t_const_char_p; anon t_dmu_objset_type_t; anon t_nvlist_p]);
  (* 23 *) Dfun (Prototype "lzc_clone" t_int
             [anon t_const_char_p; anon t_const_char_p; anon t_nvlist_p]);
  (* 24 *) Dfun (Prototype "lzc_destroy_snaps" t_int
             [anon t_nvlist_p; anon t_boolean_t; anon t_nvlist_pp]);
  (* 25 *) Dfun (Prototype "lzc_bookmark" t_int
             [anon t_nvlist_p; anon t_nvlist_pp]);
  (* 26 *) Dfun (Prototype "lzc_get_bookmarks" t_int
             [anon t_const_char_p; anon t_nvlist_p; anon t_nvlist_pp]);
  (* 27 *) Dfun (Prototype "lzc_destroy_bookmarks" t_int
             [anon t_nvlist_p; anon t_nvlist_pp]);
  (* 28 *) Dfun (Prototype "lzc_snaprange_space" t_int
             [anon t_const_char_p; anon t_const_char_p; anon t_uint64_p]);
  (* 29 *) Dfun (Prototype "lzc_hold" t_int
             [anon t_nvlist_p; anon t_int; anon t_nvlist_pp]);
  (* 30 *) Dfun (Prototype "lzc_release" t_int
             [anon t_nvlist_p; anon t_nvlist_pp]);
  (* 31 *) Dfun (Prototype "lzc_get_holds" t_int
             [anon t_const_char_p; anon t_nvlist_pp]);
  (* 32 *) Dfun (Prototype "lzc_send" t_int
             [anon t_const_char_p; anon t_const_char_p; anon t_int;
              anon t_enum_lzc_send_flags]);
  (* 33 *) Dfun (Prototype "lzc_receive" t_int
             [anon t_const_char_p; anon t_nvlist_p; anon t_const_char_p;
              anon t_boolean_t; anon t_int]);
  (* 34 *) Dfun (Prototype "lzc_send_space" t_int
             [anon t_const_char_p; anon t_const_char_p; anon t_uint64_p]);
  (* 35 *) Dfun (Prototype "lzc_exists" t_boolean_t
             [anon t_const_char_p]);
  (* 36 *) Dfun (Prototype "lzc_rollback" t_int
             [anon t_const_char_p; anon t_char_p; anon t_int]);
  (* 37 *) Dfun (Prototype "lzc_promote" t_int
             [anon t_const_char_p; anon t_nvlist_p; anon t_nvlist_pp]);
  (* 38 *) Dfun (Prototype "lzc_rename" t_int
             [anon t_const_char_p; anon t_const_char_p; anon t_nvlist_p;
              anon t_char_pp]);
  (* 39 *) Dfun (Prototype "lzc_destroy_one" t_int
             [named "fsname" t_const_char_p; anon t_nvlist_p]);
  (* 40 *) Dfun (Prototype "lzc_inherit" t_int
             [named "fsname" t_const_char_p; named "name" t_const_char_p;
              anon t_nvlist_p]);
  (* 41 *) Dfun (Prototype "lzc_set_props" t_int
             [anon t_const_char_p; anon t_nvlist_p; anon t_nvlist_p; anon t_nvlist_p]);
  (* 42 *) Dfun (Prototype "lzc_list" t_int
             [anon t_const_char_p; anon t_nvlist_p])
].

(** ** What C attaches to the declarations *)

Module Header.

(** The prototypes of a header, in declaration order. *)
Fixpoint functions (h : header) : list prototype :=
  match h with
  | [] => []
  | Dfun p :: h' => p :: functions h'
  | _ :: h' => functions h'
  end.

Definition lookup_fun (h : header) (name : string) : option prototype :=
  find (fun p => String.eqb (f_name p) name) (functions h).

(** Enumerators of [enum tag { ... };]. *)
Fixpoint lookup_enum (h : header) (tag : string) : option (list enumerator) :=
  match h with
  | [] => None
  | Denum tag' es :: h' =>
      if String.eqb tag' tag then Some es else lookup_enum h' tag
  | _ :: h' => lookup_enum h' tag
  end.

(** Enumerators of [typedef enum { ... } name;]. *)
Fixpoint lookup_typedef_enum (h : header) (name : string)
  : option (list enumerator) :=
  match h with
  | [] => None
  | Dtypedef_enum name' es :: h' =>
      if String.eqb name' name then Some es else lookup_typedef_enum h' name
  | _ :: h' => lookup_typedef_enum h' name
  end.

(** C 6.7.2.2: an enumerator with [= v] has value [v]; one without has the
    value of the previous enumerator plus one, and the first one has 0. *)
Fixpoint enum_values_from (next : Z) (es : list enumerator)
  : list (string * Z) :=
  match es with
  | [] => []
  | e :: es' =>
      let v := match en_init e with Some v => v | None => next end in
      (en_name e, v) :: enum_values_from (v + 1) es'
  end.

(** The enumerator is written without [= v]. *)
Definition implicit (e : enumerator) : bool :=
  match en_init e with None => true | Some _ => false end.

Definition enum_values (es : list enumerator) : list (string * Z) :=
  enum_values_from 0 es.

Fixpoint assoc (k : string) (l : list (string * Z)) : option Z :=
  match l with
  | [] => None
  | (k', v) :: l' => if String.eqb k' k then Some v else assoc k l'
  end.

(** Typedef names are resolved as a compiler does it: in declaration order,
    each typedef seeing only the names declared before it. *)
Fixpoint lookup_alias (env : list (string * ctype)) (n : string)
  : option ctype :=
  match env with
  | [] => None
  | (n', t) :: env' => if String.eqb n' n then Some t else lookup_alias env' n
  end.

Fixpoint expand (env : list (string * ctype)) (t : ctype) : ctype :=
  match t with
  | Tnamed n => match lookup_alias env n with Some t' => t' | None => t end
  | Tconst t' => Tconst (expand env t')
  | Tpointer t' => Tpointer (expand env t')
  | _ => t
  end.

Fixpoint typedef_env_from (env : list (string * ctype)) (h : header)
  : list (string * ctype) :=
  match h with
  | [] => env
  | Dtypedef n t :: h' => typedef_env_from ((n, expand env t) :: env) h'
  | _ :: h' => typedef_env_from env h'
  end.

Definition typedef_env (h : header) : list (string * ctype) :=
  typedef_env_from [] h.

(** The type a spelling stands for once typedef names are expanded.  The
    name of a [typedef enum { ... } name] stays: the enumeration has no
    other name. *)
Definition resolve (h : header) (t : ctype) : ctype :=
  expand (typedef_env h) t.

(** Members of [struct tag], when some declaration in the header gives
    them; [None] when the header only ever names the tag. *)
Fixpoint struct_members (h : header) (tag : string)
  : option (list (string * ctype)) :=
  match h with
  | [] => None
  | Dstruct tag' (Some ms) :: h' =>
      if String.eqb tag' tag then Some ms else struct_members h' tag
  | _ :: h' => struct_members h' tag
  end.

Fixpoint struct_declared (h : header) (tag : string) : bool :=
  match h with
  | [] => false
  | Dstruct tag' _ :: h' => String.eqb tag' tag || struct_declared h' tag
  | _ :: h' => struct_declared h' tag
  end.

(** C 6.2.5: [void] and a structure whose content is unknown are
    incomplete types; an object of incomplete type cannot be declared,
    passed by value, measured with [sizeof] or accessed member by member.
    A pointer is complete whatever it points to. *)
Fixpoint complete_resolved (h : header) (t : ctype) : bool :=
  match t with
  | Tvoid => false
  | Tstruct tag =>
      match struct_members h tag with Some _ => true | None => false end
  | Tconst t' => complete_resolved h t'
  | _ => true
  end.

Definition complete (h : header) (t : ctype) : bool :=
  complete_resolved h (resolve h t).

End Header.

Export Header.

(** ** The two enumerations as data *)

Inductive lzc_send_flags : Set :=
| LZC_SEND_FLAG_EMBED_DATA
| LZC_SEND_FLAG_LARGE_BLOCK.

Definition lzc_send_flags_name (f : lzc_send_flags) : string :=
  match f with
  | LZC_SEND_FLAG_EMBED_DATA => "LZC_SEND_FLAG_EMBED_DATA"
  | LZC_SEND_FLAG_LARGE_BLOCK => "LZC_SEND_FLAG_LARGE_BLOCK"
  end.

Definition lzc_send_flags_value (f : lzc_send_flags) : Z :=
  match f with
  | LZC_SEND_FLAG_EMBED_DATA => 1
  | LZC_SEND_FLAG_LARGE_BLOCK => 2
  end.

Definition lzc_send_flags_eqb (a b : lzc_send_flags) : bool :=
  match a, b with
  | LZC_SEND_FLAG_EMBED_DATA, LZC_SEND_FLAG_EMBED_DATA
  | LZC_SEND_FLAG_LARGE_BLOCK, LZC_SEND_FLAG_LARGE_BLOCK => true
  | _, _ => false
  end.

Inductive dmu_objset_type_t : Set :=
| DMU_OST_NONE
| DMU_OST_META
| DMU_OST_ZFS
| DMU_OST_ZVOL
| DMU_OST_OTHER
| DMU_OST_ANY
| DMU_OST_NUMTYPES.

Definition dmu_objset_type_name (k : dmu_objset_type_t) : string :=
  match k with
  | DMU_OST_NONE => "DMU_OST_NONE"
  | DMU_OST_META => "DMU_OST_META"
  | DMU_OST_ZFS => "DMU_OST_ZFS"
  | DMU_OST_ZVOL => "DMU_OST_ZVOL"
  | DMU_OST_OTHER => "DMU_OST_OTHER"
  | DMU_OST_ANY => "DMU_OST_ANY"
  | DMU_OST_NUMTYPES => "DMU_OST_NUMTYPES"
  end.

(** Enumerators in declaration order. *)
Definition dmu_objset_types : list dmu_objset_type_t :=
  [DMU_OST_NONE; DMU_OST_META; DMU_OST_ZFS; DMU_OST_ZVOL; DMU_OST_OTHER;
   DMU_OST_ANY; DMU_OST_NUMTYPES].

Module SendFlags.

(** An enumeration constant is an ordinary identifier: its value is found
    in whichever enumeration of the header declares it. *)
Fixpoint enum_constant (h : header) (name : string) : option Z :=
  match h with
  | [] => None
  | Denum _ es :: h' | Dtypedef_enum _ es :: h' =>
      match assoc name (enum_values es) with
      | Some v => Some v
      | None => enum_constant h' name
      end
  | _ :: h' => enum_constant h' name
  end.

(** [f1 | f2 | ...]: the argument a caller builds for [lzc_send]. *)
Fixpoint mask_of (fs : list lzc_send_flags) : Z :=
  match fs with
  | [] => 0
  | f :: fs' => Z.lor (lzc_send_flags_value f) (mask_of fs')
  end.

(** [(m & f) != 0]: the test that reads one flag back out of a mask. *)
Definition has_flag (m : Z) (f : lzc_send_flags) : bool :=
  negb (Z.land m (lzc_send_flags_value f) =? 0).

Definition mem_flag (f : lzc_send_flags) (fs : list lzc_send_flags) : bool :=
  existsb (lzc_send_flags_eqb f) fs.

End SendFlags.

Export SendFlags.

(** ** Signatures *)

Module Signature.

(** Every type a prototype mentions: the return type, then the parameter
    types left to right. *)
Definition signature_types (p : prototype) : list ctype :=
  f_ret p :: map p_type (f_params p).

(** The declared return type, typedefs expanded, is [int]. *)
Definition returns_int (h : header) (p : prototype) : bool :=
  ctype_eqb (resolve h (f_ret p)) t_int.

Definition returns_void (h : header) (p : prototype) : bool :=
  ctype_eqb (resolve h (f_ret p)) Tvoid.

(** The prototype spells its return type [int], not through a typedef. *)
Definition declared_int (p : prototype) : bool :=
  ctype_eqb (f_ret p) t_int.

(** A resolved type reaches [struct tag] by value or through pointers. *)
Fixpoint mentions_struct (tag : string) (t : ctype) : bool :=
  match t with
  | Tstruct tag' => String.eqb tag' tag
  | Tconst t' | Tpointer t' => mentions_struct tag t'
  | _ => false
  end.

Definition handles_nvlist (h : header) (t : ctype) : bool :=
  mentions_struct "nvlist" (resolve h t).

(** A parameter through which the callee may store: a pointer whose
    pointee is not [const]-qualified. *)
Definition writable_pointer (t : ctype) : bool :=
  match t with
  | Tpointer (Tconst _) => false
  | Tpointer _ => true
  | _ => false
  end.

Definition out_params (h : header) (p : prototype) : list param :=
  filter (fun q => writable_pointer (resolve h (p_type q))) (f_params p).

(** Ways a call can hand anything back to its caller: its return value,
    when it has one, and each pointer it may store through. *)
Definition output_channels (h : header) (p : prototype) : nat :=
  ((if returns_void h p then 0 else 1) + List.length (out_params h p))%nat.

End Signature.

Export Signature.

(** ** The operations the interface is documented to offer *)

(** The operation list of the specification (its section 4.1), one
    constructor per operation it names.  This is the documented side of
    the comparison; the declared side is [functions zfscore_h]. *)
Inductive spec_operation : Set :=
| LifecycleInit | LifecycleFini
| DatasetCreate | DatasetClone | DatasetRename | DatasetPromote
| DatasetDestroy
| SnapshotCreate | SnapshotDestroyBatch | SnapshotExists
| SnapshotSpaceDelta
| BookmarkCreate | BookmarkList | BookmarkDestroy
| HoldAcquire | HoldRelease | HoldEnumerate
| Send | SendSizeEstimate | Receive
| PropertySet | PropertyInherit | PropertyList
| Rollback.

Definition spec_operations : list spec_operation :=
  [LifecycleInit; LifecycleFini;
   DatasetCreate; DatasetClone; DatasetRename; DatasetPromote; DatasetDestroy;
   SnapshotCreate; SnapshotDestroyBatch; SnapshotExists; SnapshotSpaceDelta;
   BookmarkCreate; BookmarkList; BookmarkDestroy;
   HoldAcquire; HoldRelease; HoldEnumerate;
   Send; SendSizeEstimate; Receive;
   PropertySet; PropertyInherit; PropertyList;
   Rollback].

(** The prototype of the header that carries each operation. *)
Definition entry_point (op : spec_operation) : string :=
  match op with
  | LifecycleInit => "libzfs_core_init"
  | LifecycleFini => "libzfs_core_fini"
  | DatasetCreate => "lzc_create"
  | DatasetClone => "lzc_clone"
  | DatasetRename => "lzc_rename"
  | DatasetPromote => "lzc_promote"
  | DatasetDestroy => "lzc_destroy_one"
  | SnapshotCreate => "lzc_snapshot"
  | SnapshotDestroyBatch => "lzc_destroy_snaps"
  | SnapshotExists => "lzc_exists"
  | SnapshotSpaceDelta => "lzc_snaprange_space"
  | BookmarkCreate => "lzc_bookmark"
  | BookmarkList => "lzc_get_bookmarks"
  | BookmarkDestroy => "lzc_destroy_bookmarks"
  | HoldAcquire => "lzc_hold"
  | HoldRelease => "lzc_release"
  | HoldEnumerate => "lzc_get_holds"
  | Send => "lzc_send"
  | SendSizeEstimate => "lzc_send_space"
  | Receive => "lzc_receive"
  | PropertySet => "lzc_set_props"
  | PropertyInherit => "lzc_inherit"
  | PropertyList => "lzc_list"
  | Rollback => "lzc_rollback"
  end.

(** ** What a caller of [lzc_exists] can observe *)

Module Exists.





End Exists.

(** An ABI of the platforms the library is built for (LP64), as one
    instance of the widths the C standard leaves open. *)
Definition lp64_width (r : int_rank) : Z :=
  match r with
  | IChar => 8
  | IShort => 16
  | IInt => 32
  | ILong => 64
  | ILongLong => 64
  end.

(** Names as a set: membership and distinctness, decided. *)
Definition name_in (n : string) (l : list string) : bool :=
  existsb (String.eqb n) l.

Fixpoint distinct (l : list string) : bool :=
  match l with
  | [] => true
  | n :: l' => negb (name_in n l') && distinct l'
  end.

Definition declared_names (h : header) : list string :=
  map f_name (functions h).

(** Per prototype: [libzfs_core_fini] is declared [void]; any other
    function returns [int] once typedefs are expanded, [lzc_exists] spelled
    [boolean_t] and the rest spelled [int]. *)
Definition return_code_check (h : header) (p : prototype) : bool :=
  if String.eqb (f_name p) "libzfs_core_fini"
  then ctype_eqb (f_ret p) Tvoid
  else returns_int h p &&
       (if String.eqb (f_name p) "lzc_exists"
        then ctype_eqb (f_ret p) t_boolean_t
        else declared_int p).

(** Per type of a signature: one that reaches [struct nvlist] is spelled
    [nvlist_t *] or [nvlist_t **]. *)
Definition nvlist_by_pointer (h : header) (t : ctype) : bool :=
  if handles_nvlist h t
  then ctype_eqb t t_nvlist_p || ctype_eqb t t_nvlist_pp
  else true.

Definition nvlist_check (h : header) (p : prototype) : bool :=
  negb (handles_nvlist h (f_ret p)) &&
  forallb (nvlist_by_pointer h) (map p_type (f_params p)).

(** Per parameter list: a parameter the callee may store through is
    spelled [nvlist_t *], [nvlist_t **], [uint64_t *], [char **], or
    [char *] with an [int] right after it. *)
Fixpoint writable_forms (h : header) (ps : list param) : bool :=
  match ps with
  | [] => true
  | q :: ps' =>
      (if writable_pointer (resolve h (p_type q))
       then ctype_eqb (p_type q) t_nvlist_p
            || ctype_eqb (p_type q) t_nvlist_pp
            || ctype_eqb (p_type q) t_uint64_p
            || ctype_eqb (p_type q) t_char_pp
            || (ctype_eqb (p_type q) t_char_p &&
                match ps' with
                | q' :: _ => ctype_eqb (p_type q') t_int
                | [] => false
                end)
       else true)
      && writable_forms h ps'
  end.

(** ** Scopes and identifiers *)

Module Scope.

(** The three name spaces a file-scope declaration can add to: typedef
    names, structure tags, enumeration tags. *)
Record scope : Set := MkScope {
  sc_typedefs : list string;
  sc_structs : list string;
  sc_enums : list string
}.

Definition empty_scope : scope := MkScope [] [] [].

(** Every name the spelling of a type uses is already declared. *)
Fixpoint type_in_scope (sc : scope) (t : ctype) : bool :=
  match t with
  | Tnamed n => name_in n (sc_typedefs sc)
  | Tstruct tag => name_in tag (sc_structs sc)
  | Tenum tag => name_in tag (sc_enums sc)
  | Tconst t' | Tpointer t' => type_in_scope sc t'
  | _ => true
  end.

(** The scope after a declaration. *)
Definition declare (d : decl) (sc : scope) : scope :=
  match d with
  | Dtypedef n _ | Dtypedef_enum n _ =>
      MkScope (n :: sc_typedefs sc) (sc_structs sc) (sc_enums sc)
  | Dstruct tag _ =>
      MkScope (sc_typedefs sc) (tag :: sc_structs sc) (sc_enums sc)
  | Denum tag _ =>
      MkScope (sc_typedefs sc) (sc_structs sc) (tag :: sc_enums sc)
  | Dfun _ => sc
  end.

(** A declaration is acceptable where it stands: the types it uses are in
    scope, and it does not give a second meaning to a typedef name or an
    enumeration tag.  The members of a structure may point back to it. *)
Definition decl_in_scope (sc : scope) (d : decl) : bool :=
  match d with
  | Dtypedef n t => negb (name_in n (sc_typedefs sc)) && type_in_scope sc t
  | Dstruct _ None => true
  | Dstruct _ (Some ms) =>
      forallb (fun m => type_in_scope (declare d sc) (snd m)) ms
  | Denum tag _ => negb (name_in tag (sc_enums sc))
  | Dtypedef_enum n _ => negb (name_in n (sc_typedefs sc))
  | Dfun p => forallb (type_in_scope sc) (signature_types p)
  end.

Fixpoint well_scoped_from (sc : scope) (h : header) : bool :=
  match h with
  | [] => true
  | d :: h' => decl_in_scope sc d && well_scoped_from (declare d sc) h'
  end.

(** The header needs nothing from outside: read top to bottom, each
    declaration uses only what the lines above it declare. *)
Definition well_scoped (h : header) : bool :=
  well_scoped_from empty_scope h.

(** No typedef name that stands for another type is left in [t]. *)
Fixpoint alias_free (env : list (string * ctype)) (t : ctype) : bool :=
  match t with
  | Tnamed n =>
      match lookup_alias env n with Some _ => false | None => true end
  | Tconst t' | Tpointer t' => alias_free env t'
  | _ => true
  end.

(** Every typedef name in [t] is one of [l]. *)
Fixpoint names_within (l : list string) (t : ctype) : bool :=
  match t with
  | Tnamed n => name_in n l
  | Tconst t' | Tpointer t' => names_within l t'
  | _ => true
  end.

(** What holds of the typedef table while a well-scoped header is read:
    each alias is a declared typedef name, and the type it stands for
    uses declared names only and is itself free of aliases. *)
Definition env_ok (tds : list string) (env : list (string * ctype)) : Prop :=
  forall n t,
    lookup_alias env n = Some t ->
    name_in n tds = true /\
    names_within tds t = true /\
    alias_free env t = true.

(** The ordinary identifiers a header declares at file scope, in order:
    typedef names, enumeration constants and function names share one
    name space (C 6.2.3). *)
Fixpoint ordinary_identifiers (h : header) : list string :=
  match h with
  | [] => []
  | Dtypedef n _ :: h' => n :: ordinary_identifiers h'
  | Dstruct _ _ :: h' => ordinary_identifiers h'
  | Denum _ es :: h' => map en_name es ++ ordinary_identifiers h'
  | Dtypedef_enum n es :: h' =>
      map en_name es ++ n :: ordinary_identifiers h'
  | Dfun p :: h' => f_name p :: ordinary_identifiers h'
  end.

(** Every enumerator of the header with its value, whichever enumeration
    declares it. *)
Fixpoint enumeration_constants (h : header) : list (string * Z) :=
  match h with
  | [] => []
  | Denum _ es :: h' | Dtypedef_enum _ es :: h' =>
      enum_values es ++ enumeration_constants h'
  | _ :: h' => enumeration_constants h'
  end.

End Scope.

Export Scope.

(** ** Parameter types *)

Module Params.

(** A resolved type is scalar: an integer, a character, an enumeration or
    a pointer (C 6.2.5).  A name left after resolution is scalar when it
    names a [typedef enum]. *)
Fixpoint scalar (h : header) (t : ctype) : bool :=
  match t with
  | Tchar | Tint _ _ | Tenum _ | Tpointer _ => true
  | Tnamed n =>
      match lookup_typedef_enum h n with Some _ => true | None => false end
  | Tconst t' => scalar h t'
  | Tvoid | Tstruct _ => false
  end.

(** The ten spellings parameters are declared with. *)
Definition parameter_spellings : list ctype :=
  [t_const_char_p; t_char_p; t_char_pp; t_nvlist_p; t_nvlist_pp;
   t_uint64_p; t_int; t_boolean_t; t_dmu_objset_type_t;
   t_enum_lzc_send_flags].

Definition type_in (t : ctype) (l : list ctype) : bool :=
  existsb (ctype_eqb t) l.

(** A pointer through which a result object is handed back: a pointer to a
    pointer, or a pointer to [uint64_t]. *)
Definition result_pointer (t : ctype) : bool :=
  type_in t [t_nvlist_pp; t_uint64_p; t_char_pp].

(** Result pointers stand last: none is followed by another parameter. *)
Fixpoint result_pointer_last (ps : list param) : bool :=
  match ps with
  | [] => true
  | q :: ps' =>
      (if result_pointer (p_type q)
       then match ps' with [] => true | _ :: _ => false end
       else true)
      && result_pointer_last ps'
  end.

End Params.

Export Params.

(** ** Dataset kinds and flag bits *)

(** The value the header gives an enumerator of [dmu_objset_type_t]. *)
Definition dmu_objset_type_value (k : dmu_objset_type_t) : option Z :=
  enum_constant zfscore_h (dmu_objset_type_name k).

(** The bit a send flag occupies. *)
Definition lzc_send_flags_bit (f : lzc_send_flags) : Z :=
  match f with
  | LZC_SEND_FLAG_EMBED_DATA => 0
  | LZC_SEND_FLAG_LARGE_BLOCK => 1
  end.

(** [m | f] and [m & ~f]: putting one flag into a mask, taking it out. *)
Definition set_flag (m : Z) (f : lzc_send_flags) : Z :=
  Z.lor m (lzc_send_flags_value f).

Definition clear_flag (m : Z) (f : lzc_send_flags) : Z :=
  Z.land m (Z.lnot (lzc_send_flags_value f)).

(** * Theorems *)

(** ** Tools *)

Lemma signedness_eqb_eq a b : signedness_eqb a b = true <-> a = b.
Proof. destruct a, b; simpl; split; congruence. Qed.

Lemma int_rank_eqb_eq a b : int_rank_eqb a b = true <-> a = b.
Proof. destruct a, b; simpl; split; congruence. Qed.

Lemma ctype_eqb_eq a b : ctype_eqb a b = true <-> a = b.
Proof.
  revert b; induction a as [ | | s r | n | n | n | a IH | a IH];
    intros [ | | s' r' | n' | n' | n' | b | b]; simpl;
    try (split; congruence).
  - rewrite andb_true_iff, signedness_eqb_eq, int_rank_eqb_eq.
    split; [intros [-> ->]; reflexivity | intros [= -> ->]; auto].
  - rewrite String.eqb_eq; split; congruence.
  - rewrite String.eqb_eq; split; congruence.
  - rewrite String.eqb_eq; split; congruence.
  - rewrite IH; split; congruence.
  - rewrite IH; split; congruence.
Qed.

Lemma name_in_In n l : name_in n l = true <-> In n l.
Proof.
  unfold name_in; rewrite existsb_exists; split.
  - intros (x & Hx & E); apply String.eqb_eq in E; subst; assumption.
  - intros H; exists n; split; [assumption | apply String.eqb_refl].
Qed.

Lemma distinct_NoDup l : distinct l = true -> NoDup l.
Proof.
  induction l as [ | n l IH]; simpl; intros H; constructor.
  - apply andb_true_iff in H as [H _].
    intros Hin; apply name_in_In in Hin; rewrite Hin in H; discriminate.
  - apply IH; apply andb_true_iff in H as [_ H]; exact H.
Qed.

Lemma included_incl l1 l2 :
  forallb (fun n => name_in n l2) l1 = true -> incl l1 l2.
Proof.
  intros H n Hn; rewrite forallb_forall in H.
  apply name_in_In, H, Hn.
Qed.

(** A property decided by a boolean check holds of every prototype once the
    check passes on the list of prototypes. *)
Lemma census (h : header) (check : prototype -> bool) :
  forallb check (functions h) = true ->
  forall p, In p (functions h) -> check p = true.
Proof. intros H p Hp; rewrite forallb_forall in H; auto. Qed.

(** ** Enumerator values *)

(** Enumerators written without initialisers count upwards, one by one,
    from the value the first one receives. *)
Lemma enum_values_from_implicit es : forall next,
  forallb implicit es = true ->
  map snd (enum_values_from next es)
  = map (fun i => next + Z.of_nat i) (seq 0 (List.length es)).
Proof.
  induction es as [ | e es IH]; intros next H; simpl in *.
  - reflexivity.
  - apply andb_true_iff in H as [He Hes].
    unfold implicit in He; destruct (en_init e); [discriminate | ].
    simpl; f_equal; [lia | ].
    rewrite IH by assumption.
    rewrite <- seq_shift, map_map.
    apply map_ext; intros i; lia.
Qed.

Lemma enum_values_names es : forall next,
  map fst (enum_values_from next es) = map en_name es.
Proof.
  induction es as [ | e es IH]; intros next; simpl; [ | rewrite IH];
    reflexivity.
Qed.

Lemma enum_values_length es : forall next,
  List.length (enum_values_from next es) = List.length es.
Proof.
  induction es as [ | e es IH]; intros next; simpl; [ | rewrite IH];
    reflexivity.
Qed.

(** C2: [dmu_objset_type_t] has exactly seven enumerators, declared in the
    order none ([DMU_OST_NONE]), meta ([DMU_OST_META]), filesystem
    ([DMU_OST_ZFS]), volume ([DMU_OST_ZVOL]), other ([DMU_OST_OTHER]), any
    ([DMU_OST_ANY]), count-sentinel ([DMU_OST_NUMTYPES]), and by the C rule
    for enumerators their values are 0, 1, 2, 3, 4, 5, 6 in that order. *)
Theorem dmu_objset_type_t_values :
  exists es,
    lookup_typedef_enum zfscore_h "dmu_objset_type_t" = Some es /\
    List.length es = 7%nat /\
    map en_name es = map dmu_objset_type_name dmu_objset_types /\
    map snd (enum_values es) = [0; 1; 2; 3; 4; 5; 6] /\
    enum_values es =
      [("DMU_OST_NONE", 0); ("DMU_OST_META", 1); ("DMU_OST_ZFS", 2);
       ("DMU_OST_ZVOL", 3); ("DMU_OST_OTHER", 4); ("DMU_OST_ANY", 5);
       ("DMU_OST_NUMTYPES", 6)] /\
    map (fun k => enum_constant zfscore_h (dmu_objset_type_name k))
        dmu_objset_types
    = map (fun i => Some (Z.of_nat i)) (seq 0 7).
Proof.
  eexists; split; [reflexivity | ].
  split; [reflexivity | ].
  split; [reflexivity | ].
  split.
  - unfold enum_values; rewrite enum_values_from_implicit by reflexivity.
    reflexivity.
  - split; reflexivity.
Qed.

(** ** Send flags as a bit mask *)

(** A mask built from flags is determined by which flags occur in it. *)
Lemma mask_of_mem fs :
  mask_of fs =
  Z.lor (if mem_flag LZC_SEND_FLAG_EMBED_DATA fs then 1 else 0)
        (if mem_flag LZC_SEND_FLAG_LARGE_BLOCK fs then 2 else 0).
Proof.
  induction fs as [ | f fs IH]; simpl; [reflexivity | ].
  rewrite IH.
  destruct f, (mem_flag LZC_SEND_FLAG_EMBED_DATA fs),
    (mem_flag LZC_SEND_FLAG_LARGE_BLOCK fs); reflexivity.
Qed.

Lemma mem_flag_In f fs : mem_flag f fs = true <-> In f fs.
Proof.
  unfold mem_flag; rewrite existsb_exists; split.
  - intros (g & Hg & E); destruct f, g; simpl in E;
      try discriminate; assumption.
  - intros H; exists f; split; [assumption | destruct f; reflexivity].
Qed.

Lemma has_flag_mask_of fs f : has_flag (mask_of fs) f = mem_flag f fs.
Proof.
  rewrite mask_of_mem.
  destruct f, (mem_flag LZC_SEND_FLAG_EMBED_DATA fs),
    (mem_flag LZC_SEND_FLAG_LARGE_BLOCK fs); reflexivity.
Qed.

Lemma mask_of_range fs : 0 <= mask_of fs <= 3.
Proof.
  rewrite mask_of_mem.
  destruct (mem_flag LZC_SEND_FLAG_EMBED_DATA fs),
    (mem_flag LZC_SEND_FLAG_LARGE_BLOCK fs); simpl; lia.
Qed.

(** C3: [enum lzc_send_flags] declares exactly two enumerators,
    [LZC_SEND_FLAG_EMBED_DATA = 1] and [LZC_SEND_FLAG_LARGE_BLOCK = 2].
    The two values share no bit.  For every collection of flags the
    bitwise OR of their values lies in 0..3, so it is representable in any
    integer type C may choose for the enumeration (already in eight bits,
    signed or unsigned), and testing the combination against a flag's
    value with bitwise AND tells exactly whether that flag was put in. *)
Theorem lzc_send_flags_bitmask :
  (exists es,
      lookup_enum zfscore_h "lzc_send_flags" = Some es /\
      enum_values es =
        [("LZC_SEND_FLAG_EMBED_DATA", 1); ("LZC_SEND_FLAG_LARGE_BLOCK", 2)]) /\
  (forall f,
      enum_constant zfscore_h (lzc_send_flags_name f)
      = Some (lzc_send_flags_value f)) /\
  Z.land (lzc_send_flags_value LZC_SEND_FLAG_EMBED_DATA)
         (lzc_send_flags_value LZC_SEND_FLAG_LARGE_BLOCK) = 0 /\
  (forall fs s,
      0 <= mask_of fs <= 3 /\ representable s (min_width IChar) (mask_of fs)) /\
  (forall fs f, has_flag (mask_of fs) f = true <-> In f fs).
Proof.
  split; [eexists; split; reflexivity | ].
  split; [intros []; reflexivity | ].
  split; [reflexivity | ].
  split.
  - intros fs s; pose proof (mask_of_range fs) as R.
    split; [exact R | ].
    destruct s; unfold representable; simpl; lia.
  - intros fs f; rewrite has_flag_mask_of; apply mem_flag_In.
Qed.

(** ** Type shapes *)

Section Widths.

(** The width in bits an implementation gives each integer rank; a
    conforming one gives at least the minimum of the C standard. *)
Variable width : int_rank -> Z.
Hypothesis width_conforming : forall r, min_width r <= width r.

Lemma pow2_mono a b : 0 <= a <= b -> 2 ^ a <= 2 ^ b.
Proof. intros H; apply Z.pow_le_mono_r; lia. Qed.

(** C4: [uint64_t] stands for [unsigned long long int], an unsigned type
    that on every conforming implementation is at least 64 bits wide, so it
    holds every value below 2^64 and no negative one; [boolean_t] stands
    for plain [int], a signed type (it holds -1); [nvlist_t] stands for
    [struct nvlist]. *)
Theorem type_shapes :
  resolve zfscore_h t_uint64_t = Tint Unsigned ILongLong /\
  64 <= width ILongLong /\
  (forall v, 0 <= v < 2 ^ 64 -> representable Unsigned (width ILongLong) v) /\
  (forall v, v < 0 -> ~ representable Unsigned (width ILongLong) v) /\
  resolve zfscore_h t_boolean_t = Tint Signed IInt /\
  representable Signed (width IInt) (-1) /\
  resolve zfscore_h t_nvlist_t = Tstruct "nvlist".
Proof.
  pose proof (width_conforming ILongLong) as HLL.
  pose proof (width_conforming IInt) as HI.
  simpl in HLL, HI.
  split; [reflexivity | ].
  split; [exact HLL | ].
  split.
  { intros v Hv; unfold representable; simpl.
    pose proof (pow2_mono 64 (width ILongLong)) as M.
    lia. }
  split.
  { intros v Hv; unfold representable; simpl; lia. }
  split; [reflexivity | ].
  split.
  { unfold representable; simpl.
    pose proof (Z.pow_pos_nonneg 2 (width IInt - 1)) as P.
    lia. }
  reflexivity.
Qed.

End Widths.

Lemma type_shapes_witness :
  (forall r, min_width r <= lp64_width r) /\
  resolve zfscore_h t_uint64_t = Tint Unsigned ILongLong /\
  64 <= lp64_width ILongLong /\
  representable Unsigned (lp64_width ILongLong) (2 ^ 64 - 1) /\
  resolve zfscore_h t_boolean_t = Tint Signed IInt /\
  representable Signed (lp64_width IInt) (-1) /\
  resolve zfscore_h t_nvlist_t = Tstruct "nvlist".
Proof.
  assert (C : forall r, min_width r <= lp64_width r)
    by (intros []; simpl; lia).
  destruct (type_shapes lp64_width C) as (A & B & R & _ & D & E & F).
  split; [exact C | ].
  split; [exact A | ].
  split; [exact B | ].
  split; [apply R; lia | ].
  split; [exact D | ].
  split; [exact E | exact F].
Defined.

(** ** Return types *)

(** C1, as stated, fails: [libzfs_core_fini] (line 20) is a declared
    function whose return type is [void], so not every declared function
    returns an integer code. *)
Lemma libzfs_core_fini_has_no_return_code :
  In (Prototype "libzfs_core_fini" Tvoid []) (functions zfscore_h) /\
  returns_int zfscore_h (Prototype "libzfs_core_fini" Tvoid []) = false /\
  ~ (forall p, In p (functions zfscore_h) -> returns_int zfscore_h p = true).
Proof.
  assert (I : In (Prototype "libzfs_core_fini" Tvoid [])
                 (functions zfscore_h)) by (simpl; tauto).
  split; [exact I | ].
  split; [reflexivity | ].
  intros H; specialize (H _ I); discriminate H.
Qed.

(** C1, amended: every declared function other than [libzfs_core_fini]
    returns a value of type [int] (for [lzc_exists] under the typedef name
    [boolean_t], for the other twenty-two spelled [int]);
    [libzfs_core_fini] is declared [void] and returns no code. *)
Theorem return_codes (p : prototype) :
  In p (functions zfscore_h) ->
  if String.eqb (f_name p) "libzfs_core_fini"
  then f_ret p = Tvoid
  else resolve zfscore_h (f_ret p) = Tint Signed IInt /\
       (if String.eqb (f_name p) "lzc_exists"
        then f_ret p = t_boolean_t
        else f_ret p = t_int).
Proof.
  intros Hp.
  pose proof (census zfscore_h (return_code_check zfscore_h) eq_refl p Hp)
    as C.
  unfold return_code_check in C.
  destruct (String.eqb (f_name p) "libzfs_core_fini") eqn:E.
  - apply ctype_eqb_eq; exact C.
  - apply andb_true_iff in C as [R S].
    split; [apply ctype_eqb_eq; exact R | ].
    destruct (String.eqb (f_name p) "lzc_exists");
      apply ctype_eqb_eq; exact S.
Qed.

Lemma return_codes_witness :
  In (Prototype "lzc_exists" t_boolean_t [anon t_const_char_p])
     (functions zfscore_h) /\
  resolve zfscore_h t_boolean_t = Tint Signed IInt.
Proof.
  assert (I : In (Prototype "lzc_exists" t_boolean_t [anon t_const_char_p])
                 (functions zfscore_h)) by (simpl; tauto).
  split; [exact I | ].
  exact (proj1 (return_codes _ I)).
Defined.

(** C8: [libzfs_core_fini] is declared once, as [void libzfs_core_fini(void)]:
    it has no return value and no parameter to store through, so a call
    hands nothing back and a failure inside it cannot be seen by the
    caller. *)
Theorem libzfs_core_fini_returns_void :
  exists p,
    lookup_fun zfscore_h "libzfs_core_fini" = Some p /\
    filter (fun q => String.eqb (f_name q) "libzfs_core_fini")
           (functions zfscore_h) = [p] /\
    f_ret p = Tvoid /\
    f_params p = [] /\
    returns_void zfscore_h p = true /\
    returns_int zfscore_h p = false /\
    out_params zfscore_h p = [] /\
    output_channels zfscore_h p = 0%nat.
Proof. eexists; repeat split; reflexivity. Qed.

(** ** The existence query *)

Import Exists.






(** ** Opacity of nvlist *)

(** A pointer is a complete type whatever it points to. *)
Lemma pointer_complete (h : header) (t : ctype) :
  complete_resolved h (Tpointer t) = true.
Proof. reflexivity. Qed.

(** C6: [struct nvlist] is declared (line 3) and no declaration of the
    header gives its members, so [nvlist_t] is an incomplete type: nothing
    of it can be read, built or passed by value, while [nvlist_t *] and
    [nvlist_t **] are complete and can be passed.  No prototype returns a
    type that reaches [struct nvlist], and every parameter type that
    reaches it is spelled [nvlist_t *] or [nvlist_t **]. *)
Theorem nvlist_is_opaque :
  struct_declared zfscore_h "nvlist" = true /\
  struct_members zfscore_h "nvlist" = None /\
  resolve zfscore_h t_nvlist_t = Tstruct "nvlist" /\
  complete zfscore_h t_nvlist_t = false /\
  complete zfscore_h t_nvlist_p = true /\
  complete zfscore_h t_nvlist_pp = true /\
  (forall p, In p (functions zfscore_h) ->
     handles_nvlist zfscore_h (f_ret p) = false /\
     forall q, In q (f_params p) ->
       handles_nvlist zfscore_h (p_type q) = true ->
       p_type q = t_nvlist_p \/ p_type q = t_nvlist_pp).
Proof.
  repeat (split; [reflexivity | ]).
  intros p Hp.
  pose proof (census zfscore_h (nvlist_check zfscore_h) eq_refl p Hp) as C.
  unfold nvlist_check in C; apply andb_true_iff in C as [R P].
  split; [apply negb_true_iff; exact R | ].
  intros q Hq Hn.
  rewrite forallb_forall in P.
  specialize (P (p_type q) (in_map p_type _ _ Hq)).
  unfold nvlist_by_pointer in P; rewrite Hn in P.
  apply orb_true_iff in P as [P | P]; apply ctype_eqb_eq in P; auto.
Qed.

Lemma nvlist_is_opaque_witness :
  In (Prototype "lzc_snapshot" t_int
        [anon t_nvlist_p; anon t_nvlist_p; anon t_nvlist_pp])
     (functions zfscore_h) /\
  handles_nvlist zfscore_h t_nvlist_pp = true /\
  (p_type (anon t_nvlist_pp) = t_nvlist_p \/
   p_type (anon t_nvlist_pp) = t_nvlist_pp).
Proof.
  assert (I : In (Prototype "lzc_snapshot" t_int
                    [anon t_nvlist_p; anon t_nvlist_p; anon t_nvlist_pp])
                 (functions zfscore_h)) by (simpl; tauto).
  split; [exact I | ].
  split; [reflexivity | ].
  destruct nvlist_is_opaque as (_ & _ & _ & _ & _ & _ & H).
  apply (proj2 (H _ I) (anon t_nvlist_pp)); [simpl; tauto | reflexivity].
Defined.

(** ** Coverage of the documented operations *)

Lemma spec_operations_complete (op : spec_operation) : In op spec_operations.
Proof. destruct op; simpl; tauto. Qed.

(** Each operation the documentation lists -- lifecycle initialise and
    finalise; dataset create, clone, rename, promote, destroy; snapshot
    create, batch destroy, existence check, space delta between two
    snapshots; bookmark create, list, destroy; hold acquire, release,
    enumerate; send, send-size estimate, receive; property set, inherit,
    list; rollback -- is matched by name with a prototype of its own, and
    the header declares no function besides these twenty-four.  This is a
    statement about names: the documentation gives no operation an
    argument list or a result to set against the prototype. *)
Theorem operations_have_entry_points :
  (forall op, exists p,
      lookup_fun zfscore_h (entry_point op) = Some p /\
      In p (functions zfscore_h) /\
      f_name p = entry_point op) /\
  NoDup (map entry_point spec_operations) /\
  NoDup (declared_names zfscore_h) /\
  Permutation (map entry_point spec_operations) (declared_names zfscore_h) /\
  List.length (functions zfscore_h) = 24%nat /\
  map (fun op => option_map f_params (lookup_fun zfscore_h (entry_point op)))
      [LifecycleInit; LifecycleFini; SnapshotExists; SnapshotSpaceDelta]
  = [Some []; Some [];
     Some [anon t_const_char_p];
     Some [anon t_const_char_p; anon t_const_char_p; anon t_uint64_p]].
Proof.
  assert (N1 : NoDup (map entry_point spec_operations))
    by (apply distinct_NoDup; reflexivity).
  assert (N2 : NoDup (declared_names zfscore_h))
    by (apply distinct_NoDup; reflexivity).
  split; [ | split; [exact N1 | split; [exact N2 | split]]].
  - intros op; destruct op; eexists;
      (split; [reflexivity | split; [simpl; tauto | reflexivity]]).
  - apply NoDup_Permutation; [exact N1 | exact N2 | ].
    intros n; split; apply included_incl; reflexivity.
  - split; reflexivity.
Qed.

(** ** Parameters a callee may store through *)

(** In every prototype, a parameter that is a pointer to something not
    [const] is spelled [nvlist_t *], [nvlist_t **], [uint64_t *],
    [char **], or [char *] followed by an [int]. *)
Lemma writable_parameter_forms (p : prototype) :
  In p (functions zfscore_h) -> writable_forms zfscore_h (f_params p) = true.
Proof.
  apply (census zfscore_h (fun p => writable_forms zfscore_h (f_params p))).
  reflexivity.
Qed.

(** * Further properties of the declarations *)

(** ** Send flags, bit by bit *)

(** ANDing with a power of two keeps that one bit and nothing else. *)
Lemma land_pow2 (m k : Z) :
  0 <= k -> Z.land m (2 ^ k) = if Z.testbit m k then 2 ^ k else 0.
Proof.
  intros Hk; apply Z.bits_inj'; intros n Hn.
  rewrite Z.land_spec, Z.pow2_bits_eqb by exact Hk.
  destruct (Z.eqb_spec k n) as [-> | Hne].
  - destruct (Z.testbit m n); simpl.
    + rewrite Z.pow2_bits_eqb by exact Hn; symmetry; apply Z.eqb_refl.
    + symmetry; apply Z.bits_0.
  - rewrite andb_false_r.
    destruct (Z.testbit m k).
    + rewrite Z.pow2_bits_eqb by exact Hk.
      symmetry; apply Z.eqb_neq; exact Hne.
    + symmetry; apply Z.bits_0.
Qed.

Lemma lzc_send_flags_value_bit (f : lzc_send_flags) :
  lzc_send_flags_value f = 2 ^ lzc_send_flags_bit f.
Proof. destruct f; reflexivity. Qed.

Lemma lzc_send_flags_bit_nonneg (f : lzc_send_flags) :
  0 <= lzc_send_flags_bit f.
Proof. destruct f; simpl; lia. Qed.

Lemma has_flag_testbit (m : Z) (f : lzc_send_flags) :
  has_flag m f = Z.testbit m (lzc_send_flags_bit f).
Proof.
  unfold has_flag.
  rewrite lzc_send_flags_value_bit, land_pow2
    by apply lzc_send_flags_bit_nonneg.
  destruct (Z.testbit m (lzc_send_flags_bit f)); [ | reflexivity].
  destruct f; reflexivity.
Qed.

Lemma lzc_send_flags_bit_eqb (f g : lzc_send_flags) :
  (lzc_send_flags_bit f =? lzc_send_flags_bit g) = lzc_send_flags_eqb f g.
Proof. destruct f, g; reflexivity. Qed.

(** X1: each send flag is one bit of the mask ([LZC_SEND_FLAG_EMBED_DATA]
    bit 0, [LZC_SEND_FLAG_LARGE_BLOCK] bit 1), and this holds for any
    integer a caller may hold, whatever its other bits: testing a flag
    reads its bit; ORing a flag in turns that flag on and leaves the other
    as it was; ANDing with the flag's complement turns it off and leaves
    the other as it was. *)
Theorem send_flags_are_independent_bits (m : Z) (f g : lzc_send_flags) :
  lzc_send_flags_value f = 2 ^ lzc_send_flags_bit f /\
  has_flag m g = Z.testbit m (lzc_send_flags_bit g) /\
  has_flag (set_flag m f) g = has_flag m g || lzc_send_flags_eqb f g /\
  has_flag (clear_flag m f) g
  = has_flag m g && negb (lzc_send_flags_eqb f g).
Proof.
  pose proof (lzc_send_flags_bit_nonneg f) as Hf.
  pose proof (lzc_send_flags_bit_nonneg g) as Hg.
  split; [apply lzc_send_flags_value_bit | ].
  split; [apply has_flag_testbit | ].
  rewrite !has_flag_testbit; unfold set_flag, clear_flag.
  rewrite lzc_send_flags_value_bit.
  rewrite Z.lor_spec, Z.land_spec, Z.lnot_spec by exact Hg.
  rewrite Z.pow2_bits_eqb by exact Hf.
  rewrite lzc_send_flags_bit_eqb.
  split; reflexivity.
Qed.

(** Masks of concatenated flag lists are ORed. *)
Lemma mask_of_app (fs1 fs2 : list lzc_send_flags) :
  mask_of (fs1 ++ fs2) = Z.lor (mask_of fs1) (mask_of fs2).
Proof.
  induction fs1 as [ | f fs1 IH]; simpl.
  - reflexivity.
  - rewrite IH; apply Z.lor_assoc.
Qed.

(** X2: the mask of a list of send flags records exactly which flags occur
    in it.  Joining two lists ORs their masks; two lists have the same mask
    if and only if they hold the same flags, so order and repetition do
    not matter and different sets of flags never collide. *)
Theorem mask_of_encodes_the_flag_set :
  (forall fs1 fs2,
      mask_of (fs1 ++ fs2) = Z.lor (mask_of fs1) (mask_of fs2)) /\
  (forall fs1 fs2,
      mask_of fs1 = mask_of fs2 <-> (forall f, In f fs1 <-> In f fs2)).
Proof.
  split; [exact mask_of_app | ].
  intros fs1 fs2; split.
  - intros E f.
    rewrite <- !mem_flag_In, <- !has_flag_mask_of, E; reflexivity.
  - intros H.
    assert (M : forall f, mem_flag f fs1 = mem_flag f fs2).
    { intros f; apply eq_true_iff_eq; rewrite !mem_flag_In; apply H. }
    rewrite !mask_of_mem, !M; reflexivity.
Qed.

(** ** The count sentinel of the dataset kinds *)

(** X3: different enumerators of [dmu_objset_type_t] have different
    values, and [DMU_OST_NUMTYPES] is the exclusive upper bound of the
    others: an integer is the value of a dataset kind other than the
    sentinel exactly when it is at least 0 and below the sentinel's
    value. *)
Theorem dmu_ost_numtypes_bounds_the_kinds :
  (forall k1 k2,
      dmu_objset_type_value k1 = dmu_objset_type_value k2 -> k1 = k2) /\
  (forall v,
      (exists k, k <> DMU_OST_NUMTYPES /\ dmu_objset_type_value k = Some v)
      <->
      (exists n, dmu_objset_type_value DMU_OST_NUMTYPES = Some n /\
                 0 <= v < n)).
Proof.
  split.
  - intros k1 k2; destruct k1, k2; vm_compute; congruence.
  - intros v; split.
    + intros (k & Hk & E); exists 6; split; [reflexivity | ].
      destruct k; vm_compute in E; try congruence;
        injection E as <-; lia.
    + intros (n & En & Hv).
      vm_compute in En; injection En as <-.
      assert (C : v = 0 \/ v = 1 \/ v = 2 \/ v = 3 \/ v = 4 \/ v = 5) by lia.
      destruct C as [-> | [-> | [-> | [-> | [-> | ->]]]]];
        [exists DMU_OST_NONE | exists DMU_OST_META | exists DMU_OST_ZFS
        | exists DMU_OST_ZVOL | exists DMU_OST_OTHER | exists DMU_OST_ANY];
        (split; [discriminate | reflexivity]).
Qed.

(** ** Enumeration constants fit every integer type *)

Lemma assoc_In (k : string) (l : list (string * Z)) (v : Z) :
  assoc k l = Some v -> In (k, v) l.
Proof.
  induction l as [ | [k' v'] l IH]; simpl; [discriminate | ].
  destruct (String.eqb_spec k' k) as [-> | _].
  - intros [= ->]; left; reflexivity.
  - intros H; right; apply IH, H.
Qed.

(** A constant that [enum_constant] finds is an enumerator of the header. *)
Lemma enum_constant_In (h : header) (name : string) (v : Z) :
  enum_constant h name = Some v -> In (name, v) (enumeration_constants h).
Proof.
  induction h as [ | d h IH]; simpl; [discriminate | ].
  destruct d as [n t | tag ms | tag es | n es | p]; try exact IH.
  - destruct (assoc name (enum_values es)) as [w | ] eqn:E.
    + intros [= ->]; apply in_or_app; left; apply assoc_In, E.
    + intros H; apply in_or_app; right; apply IH, H.
  - destruct (assoc name (enum_values es)) as [w | ] eqn:E.
    + intros [= ->]; apply in_or_app; left; apply assoc_In, E.
    + intros H; apply in_or_app; right; apply IH, H.
Qed.

(** A value from 0 to 127 fits any integer type of eight bits or more,
    signed or unsigned. *)
Lemma small_value_representable (s : signedness) (w v : Z) :
  8 <= w -> 0 <= v <= 127 -> representable s w v.
Proof.
  intros Hw Hv.
  assert (P7 : 2 ^ 7 <= 2 ^ (w - 1)) by (apply Z.pow_le_mono_r; lia).
  assert (P8 : 2 ^ 8 <= 2 ^ w) by (apply Z.pow_le_mono_r; lia).
  change (2 ^ 7) with 128 in P7; change (2 ^ 8) with 256 in P8.
  destruct s; unfold representable; simpl; lia.
Qed.

Lemma min_width_at_least_8 (r : int_rank) : 8 <= min_width r.
Proof. destruct r; simpl; lia. Qed.

(** X4: C leaves the integer type behind an enumeration to the
    implementation.  Every enumeration constant the header declares is
    representable in every integer type, of any rank and either
    signedness, of every implementation that meets the minimum widths of
    the C standard; so the constants mean the same whichever type is
    chosen. *)
Theorem enumeration_constants_fit_every_integer_type
        (width : int_rank -> Z) (s : signedness) (r : int_rank)
        (name : string) (v : Z) :
  (forall r', min_width r' <= width r') ->
  enum_constant zfscore_h name = Some v ->
  representable s (width r) v.
Proof.
  intros Hw E.
  apply small_value_representable.
  - pose proof (Hw r); pose proof (min_width_at_least_8 r); lia.
  - apply enum_constant_In in E; simpl in E.
    repeat (destruct E as [[= _ <-] | E]; [lia | ]).
    contradiction.
Qed.

Lemma enumeration_constants_fit_every_integer_type_witness :
  representable Unsigned (lp64_width IChar) 3.
Proof.
  apply (enumeration_constants_fit_every_integer_type
           lp64_width Unsigned IChar "DMU_OST_ZVOL" 3).
  - intros []; simpl; lia.
  - reflexivity.
Defined.

(** ** Parameter types *)

Lemma type_in_In (t : ctype) (l : list ctype) :
  type_in t l = true <-> In t l.
Proof.
  unfold type_in; rewrite existsb_exists; split.
  - intros (x & Hx & E); apply ctype_eqb_eq in E; subst; assumption.
  - intros H; exists t; split; [assumption | apply ctype_eqb_eq; reflexivity].
Qed.

(** X5: every parameter of every prototype is declared with one of ten
    spellings ([const char *], [char *], [char **], [nvlist_t *],
    [nvlist_t **], [uint64_t *], [int], [boolean_t], [dmu_objset_type_t],
    [enum lzc_send_flags]); once typedefs are expanded each is a scalar --
    an integer, an enumeration or a pointer -- and a complete type.  No
    structure is passed by value and no parameter has type [void]. *)
Theorem parameters_are_scalars (p : prototype) (q : param) :
  In p (functions zfscore_h) ->
  In q (f_params p) ->
  In (p_type q) parameter_spellings /\
  scalar zfscore_h (resolve zfscore_h (p_type q)) = true /\
  complete zfscore_h (p_type q) = true.
Proof.
  intros Hp Hq.
  pose proof (census zfscore_h
    (fun p => forallb (fun q =>
       type_in (p_type q) parameter_spellings
       && scalar zfscore_h (resolve zfscore_h (p_type q))
       && complete zfscore_h (p_type q)) (f_params p))
    eq_refl p Hp) as C.
  simpl in C; rewrite forallb_forall in C; specialize (C q Hq).
  apply andb_true_iff in C as [C C3]; apply andb_true_iff in C as [C1 C2].
  split; [apply type_in_In; exact C1 | split; assumption].
Qed.

Lemma parameters_are_scalars_witness :
  In t_enum_lzc_send_flags parameter_spellings /\
  scalar zfscore_h (resolve zfscore_h t_enum_lzc_send_flags) = true /\
  complete zfscore_h t_enum_lzc_send_flags = true.
Proof.
  apply (parameters_are_scalars
           (Prototype "lzc_send" t_int
              [anon t_const_char_p; anon t_const_char_p; anon t_int;
               anon t_enum_lzc_send_flags])
           (anon t_enum_lzc_send_flags)).
  - simpl; tauto.
  - simpl; tauto.
Defined.

(** ** Parameters a callee may store through, and where they stand *)

Lemma writable_forms_at (h : header) (ps : list param) (q : param)
      (qs : list param) :
  writable_forms h (ps ++ q :: qs) = true ->
  writable_pointer (resolve h (p_type q)) = true ->
  p_type q = t_nvlist_p \/ p_type q = t_nvlist_pp \/
  p_type q = t_uint64_p \/ p_type q = t_char_pp \/
  (p_type q = t_char_p /\
   exists q' qs', qs = q' :: qs' /\ p_type q' = t_int).
Proof.
  induction ps as [ | a ps IH]; simpl; intros H W.
  - apply andb_true_iff in H as [H _]; rewrite W in H.
    repeat (apply orb_true_iff in H as [H | H]).
    + left; apply ctype_eqb_eq, H.
    + right; left; apply ctype_eqb_eq, H.
    + right; right; left; apply ctype_eqb_eq, H.
    + right; right; right; left; apply ctype_eqb_eq, H.
    + right; right; right; right.
      apply andb_true_iff in H as [H N].
      split; [apply ctype_eqb_eq, H | ].
      destruct qs as [ | q' qs']; [discriminate | ].
      exists q', qs'; split; [reflexivity | apply ctype_eqb_eq, N].
  - apply andb_true_iff in H as [_ H]; apply IH; assumption.
Qed.

Lemma result_pointer_last_at (ps : list param) (q : param)
      (qs : list param) :
  result_pointer_last (ps ++ q :: qs) = true ->
  result_pointer (p_type q) = true ->
  qs = [].
Proof.
  induction ps as [ | a ps IH]; simpl; intros H R.
  - apply andb_true_iff in H as [H _]; rewrite R in H.
    destruct qs; [reflexivity | discriminate].
  - apply andb_true_iff in H as [_ H]; apply IH; assumption.
Qed.

(** X6: in every prototype, a parameter through which the callee may
    store (a pointer to something not [const]) is one of three kinds: an
    [nvlist_t *]; a [char *] with an [int] as the very next parameter; or
    a result pointer -- [nvlist_t **], [uint64_t *] or [char **] -- which
    is then the last parameter of the prototype. *)
Theorem stores_follow_a_discipline
        (p : prototype) (ps : list param) (q : param) (qs : list param) :
  In p (functions zfscore_h) ->
  f_params p = (ps ++ q :: qs)%list ->
  writable_pointer (resolve zfscore_h (p_type q)) = true ->
  p_type q = t_nvlist_p \/
  (p_type q = t_char_p /\
   exists q' qs', qs = q' :: qs' /\ p_type q' = t_int) \/
  (In (p_type q) [t_nvlist_pp; t_uint64_p; t_char_pp] /\ qs = []).
Proof.
  intros Hp E W.
  pose proof (writable_parameter_forms p Hp) as F.
  pose proof (census zfscore_h (fun p => result_pointer_last (f_params p))
                eq_refl p Hp) as L.
  simpl in L; rewrite E in F, L.
  assert (R : result_pointer (p_type q) = true -> qs = [])
    by (apply (result_pointer_last_at ps); exact L).
  destruct (writable_forms_at _ _ _ _ F W) as [T | [T | [T | [T | T]]]].
  - left; exact T.
  - right; right; rewrite T in *; split; [simpl; tauto | ].
    apply R; reflexivity.
  - right; right; rewrite T in *; split; [simpl; tauto | ].
    apply R; reflexivity.
  - right; right; rewrite T in *; split; [simpl; tauto | ].
    apply R; reflexivity.
  - right; left; exact T.
Qed.

Lemma stores_follow_a_discipline_witness :
  t_char_pp = t_nvlist_p \/
  (t_char_pp = t_char_p /\
   exists q' qs', @nil param = q' :: qs' /\ p_type q' = t_int) \/
  (In t_char_pp [t_nvlist_pp; t_uint64_p; t_char_pp] /\ @nil param = []).
Proof.
  apply (stores_follow_a_discipline
           (Prototype "lzc_rename" t_int
              [anon t_const_char_p; anon t_const_char_p; anon t_nvlist_p;
               anon t_char_pp])
           [anon t_const_char_p; anon t_const_char_p; anon t_nvlist_p]
           (anon t_char_pp) []).
  - simpl; tauto.
  - reflexivity.
  - reflexivity.
Defined.

(** ** One meaning per identifier *)

Lemma NoDup_app_disjoint (A : Type) (l1 l2 : list A) (a : A) :
  NoDup (l1 ++ l2) -> In a l1 -> ~ In a l2.
Proof.
  induction l1 as [ | x l1 IH]; simpl; intros N H; [contradiction | ].
  inversion N as [ | y l Hx N']; subst.
  destruct H as [-> | H].
  - intros H2; apply Hx, in_or_app; right; exact H2.
  - apply IH; assumption.
Qed.

(** Among prototypes with distinct names, looking a prototype up by its
    name finds that prototype. *)
Lemma find_by_name (l : list prototype) (p : prototype) :
  NoDup (map f_name l) ->
  In p l ->
  find (fun p' => String.eqb (f_name p') (f_name p)) l = Some p.
Proof.
  induction l as [ | a l IH]; simpl; intros N H; [contradiction | ].
  inversion N as [ | x m Ha N']; subst.
  destruct (String.eqb_spec (f_name a) (f_name p)) as [E | NE].
  - destruct H as [-> | H]; [reflexivity | ].
    exfalso; apply Ha; rewrite E; apply in_map, H.
  - destruct H as [-> | H]; [congruence | apply IH; assumption].
Qed.

Lemma assoc_None (k : string) (l : list (string * Z)) :
  ~ In k (map fst l) -> assoc k l = None.
Proof.
  induction l as [ | [k' v'] l IH]; simpl; intros H; [reflexivity | ].
  destruct (String.eqb_spec k' k) as [-> | _].
  - exfalso; apply H; left; reflexivity.
  - apply IH; intros H'; apply H; right; exact H'.
Qed.

Lemma assoc_Some (k : string) (v : Z) (l : list (string * Z)) :
  NoDup (map fst l) -> In (k, v) l -> assoc k l = Some v.
Proof.
  induction l as [ | [k' v'] l IH]; simpl; intros N H; [contradiction | ].
  inversion N as [ | x m Hk N']; subst.
  destruct H as [[= -> ->] | H].
  - rewrite String.eqb_refl; reflexivity.
  - destruct (String.eqb_spec k' k) as [-> | _].
    + exfalso; apply Hk.
      change k with (fst (k, v)); apply in_map, H.
    + apply IH; assumption.
Qed.

(** When no enumerator name is declared twice, every enumerator is found
    under its name with its own value. *)
Lemma enum_constant_found (h : header) (name : string) (v : Z) :
  NoDup (map fst (enumeration_constants h)) ->
  In (name, v) (enumeration_constants h) ->
  enum_constant h name = Some v.
Proof.
  assert (Step : forall es h',
    (NoDup (map fst (enumeration_constants h')) ->
     In (name, v) (enumeration_constants h') ->
     enum_constant h' name = Some v) ->
    NoDup (map fst (enum_values es ++ enumeration_constants h')) ->
    In (name, v) (enum_values es ++ enumeration_constants h') ->
    match assoc name (enum_values es) with
    | Some w => Some w
    | None => enum_constant h' name
    end = Some v).
  { intros es h' IH N H; rewrite map_app in N.
    apply in_app_or in H as [H | H].
    - rewrite (assoc_Some name v); [reflexivity | | exact H].
      apply NoDup_app_remove_r in N; exact N.
    - rewrite assoc_None.
      + apply IH; [apply NoDup_app_remove_l in N; exact N | exact H].
      + intros Hin; apply (NoDup_app_disjoint _ _ _ name N Hin).
        change name with (fst (name, v)); apply in_map, H. }
  induction h as [ | d h IH]; simpl; [contradiction | ].
  destruct d as [n t | tag ms | tag es | n es | p]; try exact IH.
  - apply Step, IH.
  - apply Step, IH.
Qed.

(** X7: no identifier is declared twice: the typedef names, the
    enumeration constants of both enumerations and the function names of
    the header are pairwise different.  So a name picks out one
    declaration: looking up a declared function by its name returns its
    own prototype, and every enumerator of either enumeration is found
    under its name with its own value. *)
Theorem identifiers_are_declared_once :
  NoDup (ordinary_identifiers zfscore_h) /\
  (forall p, In p (functions zfscore_h) ->
     lookup_fun zfscore_h (f_name p) = Some p) /\
  (forall name v, In (name, v) (enumeration_constants zfscore_h) ->
     enum_constant zfscore_h name = Some v).
Proof.
  split; [apply distinct_NoDup; reflexivity | split].
  - intros p Hp; apply find_by_name; [ | exact Hp].
    apply distinct_NoDup; reflexivity.
  - intros name v H; apply enum_constant_found; [ | exact H].
    apply distinct_NoDup; reflexivity.
Qed.

Lemma identifiers_are_declared_once_witness :
  lookup_fun zfscore_h "lzc_list"
  = Some (Prototype "lzc_list" t_int [anon t_const_char_p; anon t_nvlist_p])
  /\ enum_constant zfscore_h "DMU_OST_NUMTYPES" = Some 6.
Proof.
  destruct identifiers_are_declared_once as (_ & F & E).
  split.
  - apply (F (Prototype "lzc_list" t_int
                [anon t_const_char_p; anon t_nvlist_p])).
    simpl; tauto.
  - apply (E "DMU_OST_NUMTYPES" 6); simpl; tauto.
Defined.

(** ** The header stands on its own *)

Lemma type_in_scope_names (sc : scope) (t : ctype) :
  type_in_scope sc t = true -> names_within (sc_typedefs sc) t = true.
Proof. induction t; simpl; auto. Qed.

Lemma name_in_cons (n x : string) (l : list string) :
  name_in n l = true -> name_in n (x :: l) = true.
Proof. unfold name_in; simpl; intros ->; apply orb_true_r. Qed.

Lemma names_within_cons (l : list string) (x : string) (t : ctype) :
  names_within l t = true -> names_within (x :: l) t = true.
Proof.
  induction t; simpl; auto.
  apply name_in_cons.
Qed.

(** A name that is declared differs from one that is not. *)
Lemma declared_differs (l : list string) (n x : string) :
  name_in n l = true -> name_in x l = false -> String.eqb x n = false.
Proof.
  intros Hn Hx; destruct (String.eqb_spec x n) as [-> | _];
    [congruence | reflexivity].
Qed.

Lemma alias_free_fresh (l : list string) (env : list (string * ctype))
      (x : string) (u t : ctype) :
  names_within l t = true ->
  name_in x l = false ->
  alias_free ((x, u) :: env) t = alias_free env t.
Proof.
  intros Ht Hx; induction t; simpl in *; auto.
  rewrite (declared_differs l name x Ht Hx); reflexivity.
Qed.

Lemma expand_ok (tds : list string) (env : list (string * ctype))
      (t : ctype) :
  env_ok tds env ->
  names_within tds t = true ->
  names_within tds (expand env t) = true /\
  alias_free env (expand env t) = true.
Proof.
  intros Hok; induction t; simpl; intros Ht; auto.
  destruct (lookup_alias env name) as [u | ] eqn:E.
  - destruct (Hok _ _ E) as (_ & Hu & Fu); split; assumption.
  - simpl; rewrite E; split; [exact Ht | reflexivity].
Qed.

Lemma env_ok_typedef (tds : list string) (env : list (string * ctype))
      (x : string) (t : ctype) :
  env_ok tds env ->
  name_in x tds = false ->
  names_within tds t = true ->
  env_ok (x :: tds) ((x, expand env t) :: env).
Proof.
  intros Hok Hx Ht n u L; simpl in L.
  destruct (expand_ok tds env t Hok Ht) as [Wt Ft].
  destruct (String.eqb_spec x n) as [-> | NE].
  - injection L as <-.
    split; [unfold name_in; simpl; rewrite String.eqb_refl; reflexivity | ].
    split; [apply names_within_cons, Wt | ].
    rewrite (alias_free_fresh tds) by assumption; exact Ft.
  - destruct (Hok _ _ L) as (Hn & Wu & Fu).
    split; [apply name_in_cons, Hn | ].
    split; [apply names_within_cons, Wu | ].
    rewrite (alias_free_fresh tds) by assumption; exact Fu.
Qed.

Lemma env_ok_cons (tds : list string) (env : list (string * ctype))
      (x : string) :
  env_ok tds env -> env_ok (x :: tds) env.
Proof.
  intros Hok n u L; destruct (Hok _ _ L) as (Hn & Wu & Fu).
  split; [apply name_in_cons, Hn | ].
  split; [apply names_within_cons, Wu | exact Fu].
Qed.

(** Later declarations of a well-scoped header do not change what an
    already declared typedef name stands for. *)
Lemma lookup_stable (h : header) : forall sc env n,
  well_scoped_from sc h = true ->
  name_in n (sc_typedefs sc) = true ->
  lookup_alias (typedef_env_from env h) n = lookup_alias env n.
Proof.
  induction h as [ | d h IH]; intros sc env n W Hn; [reflexivity | ].
  simpl in W; apply andb_true_iff in W as [Wd W].
  destruct d as [x t | tag ms | tag es | x es | p]; simpl.
  - simpl in Wd; apply andb_true_iff in Wd as [Fx _].
    apply negb_true_iff in Fx.
    rewrite (IH _ _ n W) by (simpl; apply name_in_cons, Hn).
    simpl; rewrite (declared_differs _ n x Hn Fx); reflexivity.
  - apply (IH _ _ n W); exact Hn.
  - apply (IH _ _ n W); exact Hn.
  - apply (IH _ _ n W); simpl; apply name_in_cons, Hn.
  - apply (IH _ _ n W); exact Hn.
Qed.

Lemma expand_ext (tds : list string) (env1 env2 : list (string * ctype))
      (t : ctype) :
  (forall n, name_in n tds = true ->
             lookup_alias env1 n = lookup_alias env2 n) ->
  names_within tds t = true ->
  expand env1 t = expand env2 t.
Proof.
  intros H; induction t; simpl; intros Ht; auto.
  - rewrite (H _ Ht); reflexivity.
  - rewrite IHt by exact Ht; reflexivity.
  - rewrite IHt by exact Ht; reflexivity.
Qed.

Lemma alias_free_ext (tds : list string) (env1 env2 : list (string * ctype))
      (t : ctype) :
  (forall n, name_in n tds = true ->
             lookup_alias env1 n = lookup_alias env2 n) ->
  names_within tds t = true ->
  alias_free env1 t = alias_free env2 t.
Proof.
  intros H; induction t; simpl; intros Ht; auto.
  rewrite (H _ Ht); reflexivity.
Qed.

Lemma expand_alias_free (env : list (string * ctype)) (t : ctype) :
  alias_free env t = true -> expand env t = t.
Proof.
  induction t; simpl; intros H; auto.
  - destruct (lookup_alias env name); [discriminate | reflexivity].
  - rewrite IHt by exact H; reflexivity.
  - rewrite IHt by exact H; reflexivity.
Qed.

Lemma resolves_from (h : header) : forall sc env,
  env_ok (sc_typedefs sc) env ->
  well_scoped_from sc h = true ->
  forall p t,
    In p (functions h) ->
    In t (signature_types p) ->
    alias_free (typedef_env_from env h) (expand (typedef_env_from env h) t)
    = true.
Proof.
  induction h as [ | d h IH]; intros sc env Hok W p t Hp Ht;
    [contradiction | ].
  simpl in W; apply andb_true_iff in W as [Wd W].
  destruct d as [x u | tag ms | tag es | x es | p0]; simpl in Hp |- *.
  - simpl in Wd; apply andb_true_iff in Wd as [Fx Su].
    apply negb_true_iff in Fx.
    refine (IH (declare (Dtypedef x u) sc) _ _ W p t Hp Ht).
    simpl; apply env_ok_typedef;
      [exact Hok | exact Fx | apply type_in_scope_names, Su].
  - exact (IH (declare (Dstruct tag ms) sc) _ Hok W p t Hp Ht).
  - exact (IH (declare (Denum tag es) sc) _ Hok W p t Hp Ht).
  - refine (IH (declare (Dtypedef_enum x es) sc) _ _ W p t Hp Ht).
    simpl; apply env_ok_cons, Hok.
  - destruct Hp as [-> | Hp]; [ | exact (IH sc _ Hok W p t Hp Ht)].
    unfold decl_in_scope in Wd; rewrite forallb_forall in Wd.
    pose proof (type_in_scope_names _ _ (Wd t Ht)) as Nt.
    assert (S : forall n, name_in n (sc_typedefs sc) = true ->
                lookup_alias (typedef_env_from env h) n
                = lookup_alias env n)
      by (intros n Hn; apply (lookup_stable h sc); assumption).
    destruct (expand_ok _ env t Hok Nt) as [We Fe].
    rewrite (expand_ext _ _ env t S Nt).
    rewrite (alias_free_ext _ _ env _ S We); exact Fe.
Qed.

(** In a header where every declaration uses only names declared above
    it, every type of every prototype resolves to a type in which no
    typedef alias is left, and resolving again changes nothing. *)
Lemma well_scoped_resolves (h : header) (p : prototype) (t : ctype) :
  well_scoped h = true ->
  In p (functions h) ->
  In t (signature_types p) ->
  alias_free (typedef_env h) (resolve h t) = true /\
  resolve h (resolve h t) = resolve h t.
Proof.
  intros W Hp Ht.
  assert (F : alias_free (typedef_env h) (resolve h t) = true).
  { refine (resolves_from h empty_scope [] _ W p t Hp Ht).
    intros n u L; discriminate L. }
  split; [exact F | apply expand_alias_free, F].
Qed.

(** X8: the header needs no other file: read from the top, every
    declaration uses only typedef names, structure tags and enumeration
    tags declared on the lines above it, and none gives a typedef name or
    an enumeration tag a second meaning.  Hence every type in every
    prototype resolves completely -- no typedef alias is left in the
    result, and resolving the result again returns it unchanged. *)
Theorem header_is_self_contained :
  well_scoped zfscore_h = true /\
  (forall p t,
      In p (functions zfscore_h) ->
      In t (signature_types p) ->
      alias_free (typedef_env zfscore_h) (resolve zfscore_h t) = true /\
      resolve zfscore_h (resolve zfscore_h t) = resolve zfscore_h t).
Proof.
  split; [reflexivity | ].
  intros p t Hp Ht; apply (well_scoped_resolves zfscore_h p t);
    [reflexivity | exact Hp | exact Ht].
Qed.

Lemma header_is_self_contained_witness :
  alias_free (typedef_env zfscore_h) (resolve zfscore_h t_uint64_p) = true /\
  resolve zfscore_h (resolve zfscore_h t_uint64_p)
  = resolve zfscore_h t_uint64_p.
Proof.
  apply (proj2 header_is_self_contained
           (Prototype "lzc_send_space" t_int
              [anon t_const_char_p; anon t_const_char_p; anon t_uint64_p])
           t_uint64_p).
  - simpl; tauto.
  - simpl; tauto.
Defined.

(** ** Masks that no enumerator names *)

Lemma mem_flag_false (f : lzc_send_flags) (fs : list lzc_send_flags) :
  mem_flag f fs = false <-> ~ In f fs.
Proof.
  rewrite <- mem_flag_In; destruct (mem_flag f fs); split; congruence.
Qed.

(** X9: a mask of send flags equals the value of an enumerator exactly
    when it holds exactly one flag.  The empty mask (0) and the mask of
    both flags (3) are arguments [lzc_send] accepts in its
    [enum lzc_send_flags] parameter that are not the value of any
    enumerator of that enumeration. *)
Theorem only_single_flags_are_enumerators (fs : list lzc_send_flags) :
  (exists f, mask_of fs = lzc_send_flags_value f) <->
  (exists f, forall g, In g fs <-> g = f).
Proof.
  rewrite mask_of_mem.
  destruct (mem_flag LZC_SEND_FLAG_EMBED_DATA fs) eqn:E1,
           (mem_flag LZC_SEND_FLAG_LARGE_BLOCK fs) eqn:E2; simpl.
  - apply mem_flag_In in E1, E2; split.
    + intros ([] & H); discriminate H.
    + intros (f & H).
      apply H in E1, E2; congruence.
  - apply mem_flag_In in E1; apply mem_flag_false in E2; split.
    + intros _; exists LZC_SEND_FLAG_EMBED_DATA; intros []; split;
        intros H; try reflexivity; try assumption;
        try contradiction; discriminate H.
    + intros _; exists LZC_SEND_FLAG_EMBED_DATA; reflexivity.
  - apply mem_flag_false in E1; apply mem_flag_In in E2; split.
    + intros _; exists LZC_SEND_FLAG_LARGE_BLOCK; intros []; split;
        intros H; try reflexivity; try assumption;
        try contradiction; discriminate H.
    + intros _; exists LZC_SEND_FLAG_LARGE_BLOCK; reflexivity.
  - apply mem_flag_false in E1, E2; split.
    + intros ([] & H); discriminate H.
    + intros (f & H); exfalso.
      destruct f; [apply E1 | apply E2]; apply H; reflexivity.
Qed.
